(** * HabitTool: execution tracking and archival engine (src/main.rs)

    Shallow embedding of the habit record, [update_habit],
    [update_execution], [archive_execution] and
    [map_executions_to_display_chars].  An [i8] day-value is a [Z], a [u8]
    byte is a [Z] in [0, 256) whose wrap-around is written out with
    [Z.land _ 255]; in-place mutation through [&mut] is modelled by
    returning the updated value. *)

From Stdlib Require Import ZArith List String Ascii Bool Lia.
Import ListNotations.
Open Scope Z_scope.

(** ** Data model *)

(** [const MAX_EXECUTIONS: usize = 49] *)
Definition MAX_EXECUTIONS : nat := 49.

(** [struct HabitExecution] *)
Record HabitExecution := mkHabit {
  name : string;
  executions : list Z;            (* Vec<i8> *)
  manual_update : bool;
  archived_executions : list string
}.

(** [HabitExecution::new] *)
Definition new_habit (n : string) : HabitExecution :=
  mkHabit n [] false [].

(** ** URL-safe base64 without padding ([base64_url::encode], i.e. the
    [base64] crate with [URL_SAFE_NO_PAD], RFC 4648 section 5). *)

Definition b64_alphabet : string :=
  "ABCDEFGHIJKLMNOPQRSTUVWXYZabcdefghijklmnopqrstuvwxyz0123456789-_".

Definition b64_sym (n : Z) : ascii :=
  match String.get (Z.to_nat n) b64_alphabet with
  | Some c => c
  | None => "="%char
  end.

Fixpoint b64url_encode (bs : list Z) : string :=
  match bs with
  | a :: b :: c :: rest =>
      String (b64_sym (Z.shiftr a 2))
        (String (b64_sym (Z.lor (Z.shiftl (Z.land a 3) 4) (Z.shiftr b 4)))
          (String (b64_sym (Z.lor (Z.shiftl (Z.land b 15) 2) (Z.shiftr c 6)))
            (String (b64_sym (Z.land c 63)) (b64url_encode rest))))
  | [a; b] =>
      String (b64_sym (Z.shiftr a 2))
        (String (b64_sym (Z.lor (Z.shiftl (Z.land a 3) 4) (Z.shiftr b 4)))
          (String (b64_sym (Z.shiftl (Z.land b 15) 2)) EmptyString))
  | [a] =>
      String (b64_sym (Z.shiftr a 2))
        (String (b64_sym (Z.shiftl (Z.land a 3) 4)) EmptyString)
  | [] => EmptyString
  end.

(** Decoding (the inverse direction, [base64_url::decode]). *)
Fixpoint b64_index_from (c : ascii) (s : string) (k : Z) : option Z :=
  match s with
  | EmptyString => None
  | String d s' => if Ascii.eqb c d then Some k else b64_index_from c s' (k + 1)
  end.

Fixpoint b64_sextets (s : string) : option (list Z) :=
  match s with
  | EmptyString => Some []
  | String c s' =>
      match b64_index_from c b64_alphabet 0, b64_sextets s' with
      | Some v, Some vs => Some (v :: vs)
      | _, _ => None
      end
  end.

Fixpoint b64_join (xs : list Z) : option (list Z) :=
  match xs with
  | a :: b :: c :: d :: rest =>
      match b64_join rest with
      | Some r =>
          Some (Z.lor (Z.shiftl a 2) (Z.shiftr b 4)
                :: Z.lor (Z.shiftl (Z.land b 15) 4) (Z.shiftr c 2)
                :: Z.lor (Z.shiftl (Z.land c 3) 6) d :: r)
      | None => None
      end
  | [a; b; c] =>
      Some [Z.lor (Z.shiftl a 2) (Z.shiftr b 4);
            Z.lor (Z.shiftl (Z.land b 15) 4) (Z.shiftr c 2)]
  | [a; b] => Some [Z.lor (Z.shiftl a 2) (Z.shiftr b 4)]
  | [_] => None
  | [] => Some []
  end.

Definition b64url_decode (s : string) : option (list Z) :=
  match b64_sextets s with
  | Some xs => b64_join xs
  | None => None
  end.

(** ** [archive_execution] *)

(** One step of the loop body after the group check:
    [byte_rep = byte_rep << 1; if value == 1 { byte_rep = byte_rep | 1 }]
    on a [u8]. *)
Definition push_bit (byte_rep value : Z) : Z :=
  let shifted := Z.land (Z.shiftl byte_rep 1) 255 in
  if Z.eqb value 1 then Z.lor shifted 1 else shifted.

(** The [for (i, value) in old_executions.into_iter().enumerate()] loop;
    state: [archive_array] and [byte_rep]. *)
Fixpoint archive_loop (i : nat) (vs : list Z) (archive_array : list Z)
    (byte_rep : Z) : list Z * Z :=
  match vs with
  | [] => (archive_array, byte_rep)
  | value :: vs' =>
      let '(arr1, b1) :=
        if negb (Nat.eqb i 0) && Nat.eqb (Nat.modulo i 8) 0
        then (archive_array ++ [byte_rep], 0)
        else (archive_array, byte_rep) in
      archive_loop (S i) vs' arr1 (push_bit b1 value)
  end.

(** The byte sequence handed to [base64_url::encode]: after the loop,
    [byte_rep = byte_rep << 7; archive_array.push(byte_rep)]. *)
Definition archive_bytes (old_executions : list Z) : list Z :=
  let '(arr, b) := archive_loop 0 old_executions [] 0 in
  arr ++ [Z.land (Z.shiftl b 7) 255].

Definition archive_token (old_executions : list Z) : string :=
  b64url_encode (archive_bytes old_executions).

Definition archive_execution (h : HabitExecution) : HabitExecution :=
  mkHabit (name h) []
    (manual_update h)
    (archived_executions h ++ [archive_token (executions h)]).

(** ** [update_habit] *)
Definition update_habit (h : HabitExecution) (value : Z) (manual : bool)
    : HabitExecution :=
  let h1 := if Nat.leb MAX_EXECUTIONS (List.length (executions h))
            then archive_execution h else h in
  let h2 := if negb (manual_update h1)
            then mkHabit (name h1) (executions h1 ++ [value])
                   (manual_update h1) (archived_executions h1)
            else h1 in
  mkHabit (name h2) (executions h2) manual (archived_executions h2).

(** ** [update_execution]: the result pairs the mutated vector with the
    returned [Result<String, String>]. *)
Fixpoint update_execution (habits : list HabitExecution) (nm : string)
    (value : Z) (manual : bool)
    : list HabitExecution * (string + string) :=
  match habits with
  | [] => ([], inr "Habit  not found"%string)
  | h :: hs =>
      if String.eqb nm (name h)
      then (update_habit h value manual :: hs, inl nm)
      else let '(hs', r) := update_execution hs nm value manual in
           (h :: hs', r)
  end.

(** The test [archive_habit_execution] of main.rs. *)
Definition test_window : list Z :=
  [1; 1; -1] ++ repeat 0 4 ++ [1; 1] ++ repeat 0%Z 38 ++ [1; 1].

Example test_window_token : archive_token test_window = "wYAAAAABgA"%string.
Proof. vm_compute. reflexivity. Qed.

(** ** [map_executions_to_display_chars]

    Each element is the pair of arguments (symbol, colour) passed to
    [ColorMapping::get_string_with_color]; the colouring itself belongs to
    the renderer (module [colorize]).  The closure's captured mutable
    [diplay_today] is threaded as state through the [(0..49).map]. *)
Definition Colored : Type := (string * string)%type.

Fixpoint display_loop (n x : nat) (diplay_today : bool) (h : HabitExecution)
    : list Colored :=
  match n with
  | O => []
  | S n' =>
      if Nat.leb (List.length (executions h)) x then
        if Bool.eqb diplay_today true && Bool.eqb (manual_update h) false then
          ("T", "orange")%string :: display_loop n' (S x) false h
        else ("."%string, "blue"%string) :: display_loop n' (S x) diplay_today h
      else
        (if Z.eqb (nth x (executions h) 0) 1 then ("X", "green")%string
         else ("O", "red")%string) :: display_loop n' (S x) diplay_today h
  end.

Definition map_executions_to_display_chars (h : HabitExecution)
    : list Colored :=
  display_loop 49 0 true h.

(** ** Sequences of updates applied to one record *)
Fixpoint run_updates (h : HabitExecution) (ops : list (Z * bool))
    : HabitExecution :=
  match ops with
  | [] => h
  | (v, m) :: ops' => run_updates (update_habit h v m) ops'
  end.

(** Number of updates of a run that start on a full (49-value) window. *)
Fixpoint full_window_updates (h : HabitExecution) (ops : list (Z * bool))
    : nat :=
  match ops with
  | [] => O
  | (v, m) :: ops' =>
      ((if Nat.leb MAX_EXECUTIONS (List.length (executions h)) then 1 else 0)
       + full_window_updates (update_habit h v m) ops')%nat
  end.

(** Number of updates of a run in which the window would grow past
    [MAX_EXECUTIONS] if it were not archived: a full window and a value
    that is actually written ([manual_update] false). *)
Fixpoint overflowing_updates (h : HabitExecution) (ops : list (Z * bool))
    : nat :=
  match ops with
  | [] => O
  | (v, m) :: ops' =>
      ((if Nat.leb MAX_EXECUTIONS (List.length (executions h))
           && negb (manual_update h) then 1 else 0)
       + overflowing_updates (update_habit h v m) ops')%nat
  end.

(** ** The packing described in section 4.1 of the spec, written from its
    words, to be compared with [archive_bytes]. *)

Definition done_bit (v : Z) : Z := if Z.eqb v 1 then 1 else 0.

(** One byte per group: shift the accumulator left one bit per value and
    set the low bit for a done value. *)
Definition group_byte (g : list Z) : Z :=
  fold_left (fun acc v => Z.lor (Z.shiftl acc 1) (done_bit v)) g 0.

(** Consecutive groups of 8 values, the last one possibly shorter. *)
Fixpoint chunks_fuel (fuel : nat) (w : list Z) : list (list Z) :=
  match fuel with
  | O => []
  | S f =>
      if Nat.leb (List.length w) 8 then [w]
      else firstn 8 w :: chunks_fuel f (skipn 8 w)
  end.

Definition chunks8 (w : list Z) : list (list Z) :=
  chunks_fuel (List.length w) w.

(** Full groups as they are; the final partial group left-aligned by
    [8 - group_size] bits. *)
Definition pack_spec (w : list Z) : list Z :=
  let cs := chunks8 w in
  let lastg := last cs [] in
  map group_byte (removelast cs)
    ++ [Z.shiftl (group_byte lastg) (Z.of_nat (8 - List.length lastg))].

(** ** [add_new_habit] *)
Definition add_new_habit (n : string) (habits : list HabitExecution)
    : list HabitExecution :=
  habits ++ [new_habit n].

(** ** The update loops of [perform_user_updates] and
    [perform_mechanical_update] (between [deserialize_file] and
    [serialize]): each name in turn is passed to [update_execution], whose
    [Result] is ignored. *)
Fixpoint update_names (names : list string) (value : Z) (manual : bool)
    (habits : list HabitExecution) : list HabitExecution :=
  match names with
  | [] => habits
  | n :: ns => update_names ns value manual (fst (update_execution habits n value manual))
  end.

Definition perform_user_updates_loop (habit_names : list string)
    (habits : list HabitExecution) : list HabitExecution :=
  update_names habit_names 1 true habits.

(** [names] is collected from the vector before the loop starts. *)
Definition perform_mechanical_update_loop (habits : list HabitExecution)
    : list HabitExecution :=
  update_names (map name habits) (-1) false habits.

(** ** [display_habits]: the vector [collected_strings] built by its first
    loop (one column per requested name and per record carrying it). *)
Fixpoint display_collect_for (habit_name : string) (habits : list HabitExecution)
    : list (list Colored) :=
  match habits with
  | [] => []
  | h :: hs =>
      if String.eqb (name h) habit_name
      then map_executions_to_display_chars h :: display_collect_for habit_name hs
      else display_collect_for habit_name hs
  end.

Fixpoint display_collect (habit_names : list string) (habits : list HabitExecution)
    : list (list Colored) :=
  match habit_names with
  | [] => []
  | n :: ns => display_collect_for n habits ++ display_collect ns habits
  end.

(** ** [parse_matches]

    The parsed command line as [getopts::Matches] exposes it to
    [parse_matches]: [opt_present] of the flags, [opt_str "i"] (present
    exactly when it is [Some]) and [opt_strs "n"].  A failing
    [opts.parse] panics before the decision and is not modelled. *)
Record Matches := mkMatches {
  opt_h : bool;
  opt_u : bool;
  opt_m : bool;
  opt_d : bool;
  opt_i : option string;
  opt_n : list string
}.

(** [enum ArgumentAction] (the [&Options] of [DisplayUsage] is left out:
    it is always the [opts] given). *)
Inductive ArgumentAction :=
| MechanicalUpdate (file_name : string)
| UserUpdate (habit_names : list string) (file_name : string)
| DisplayUsage (program_name : string)
| Display (habit_names : list string) (file_name : string).

Definition parse_matches (program_name : string) (matches : Matches)
    : ArgumentAction :=
  if opt_h matches then DisplayUsage program_name
  else if opt_u matches then
    match opt_i matches with
    | None => DisplayUsage program_name
    | Some file_name =>
        match opt_n matches with
        | [] => DisplayUsage program_name
        | habit_names => UserUpdate habit_names file_name
        end
    end
  else if opt_m matches then
    match opt_i matches with
    | None => DisplayUsage program_name
    | Some file_name => MechanicalUpdate file_name
    end
  else if opt_d matches then
    match opt_i matches with
    | None => DisplayUsage program_name
    | Some file_name =>
        match opt_n matches with
        | [] => DisplayUsage program_name
        | habit_names => Display habit_names file_name
        end
    end
  else DisplayUsage program_name.

(** ** Tests of main.rs, replayed *)

Example test_update_basic_habit :
  fst (update_execution
         (fst (update_execution [new_habit "Test"] "Test" (-1) false))
         "Test" (-1) false)
  = [mkHabit "Test" [-1; -1] false []].
Proof. reflexivity. Qed.

Example test_display_new :
  firstn 2 (map_executions_to_display_chars (new_habit "Test"))
  = [("T", "orange"); (".", "blue")]%string.
Proof. reflexivity. Qed.

Example pack_spec_test_window : pack_spec test_window = archive_bytes test_window.
Proof. vm_compute. reflexivity. Qed.

(** * Lemmas on the archive loop *)

Lemma lor_double_bit (a : Z) (v : Z) :
  0 <= a -> Z.lor (Z.shiftl a 1) (done_bit v) = 2 * a + done_bit v.
Proof.
  intros Ha. unfold done_bit.
  destruct (Z.eqb v 1); destruct a as [|p|p]; try lia; reflexivity.
Qed.

Lemma push_bit_small (b v : Z) :
  0 <= b < 128 -> push_bit b v = 2 * b + done_bit v.
Proof.
  intros Hb. unfold push_bit.
  assert (Hland : Z.land (Z.shiftl b 1) 255 = Z.shiftl b 1).
  { change 255 with (Z.ones 8).
    rewrite Z.land_ones by lia.
    rewrite Z.shiftl_mul_pow2 by lia.
    apply Z.mod_small. change (2 ^ 1) with 2. change (2 ^ 8) with 256. lia. }
  rewrite Hland.
  rewrite <- lor_double_bit by lia.
  unfold done_bit. destruct (Z.eqb v 1); [reflexivity|].
  rewrite Z.lor_0_r. reflexivity.
Qed.

(** Within a group of at most 8 values started from a byte below [2^k],
    the [u8] accumulator never wraps and agrees with [group_byte]'s. *)
Lemma fold_push_bit (g : list Z) : forall (acc : Z) (k : nat),
  0 <= acc < 2 ^ Z.of_nat k ->
  (k + List.length g <= 8)%nat ->
  fold_left push_bit g acc
    = fold_left (fun acc v => Z.lor (Z.shiftl acc 1) (done_bit v)) g acc
  /\ 0 <= fold_left push_bit g acc < 2 ^ Z.of_nat (k + List.length g).
Proof.
  induction g as [|v g IH]; intros acc k Hacc Hk; cbn [fold_left List.length].
  - rewrite Nat.add_0_r. split; [reflexivity | exact Hacc].
  - simpl in Hk.
    assert (Hk7 : (k <= 7)%nat) by lia.
    assert (Hpow : 2 ^ Z.of_nat k <= 128).
    { change 128 with (2 ^ Z.of_nat 7). apply Z.pow_le_mono_r; lia. }
    assert (Hbit : 0 <= done_bit v <= 1)
      by (unfold done_bit; destruct (Z.eqb v 1); lia).
    rewrite push_bit_small by lia.
    rewrite lor_double_bit by lia.
    replace (k + S (List.length g))%nat with (S k + List.length g)%nat by lia.
    apply IH; [|lia].
    rewrite Nat2Z.inj_succ, Z.pow_succ_r by lia. lia.
Qed.

Lemma group_byte_push_bit (g : list Z) :
  (List.length g <= 8)%nat -> fold_left push_bit g 0 = group_byte g.
Proof.
  intros Hg. unfold group_byte.
  apply (fold_push_bit g 0 0); simpl; lia.
Qed.

Lemma group_byte_range (g : list Z) :
  (List.length g <= 8)%nat -> 0 <= group_byte g < 2 ^ Z.of_nat (List.length g).
Proof.
  intros Hg. rewrite <- group_byte_push_bit by exact Hg.
  apply (fold_push_bit g 0 0); simpl; lia.
Qed.

(** Loop iterations that do not close a group only accumulate bits. *)
Lemma archive_loop_inner (g : list Z) : forall i rest arr b,
  (forall j, (j < List.length g)%nat -> (i + j = 0)%nat \/ Nat.modulo (i + j) 8 <> 0%nat) ->
  archive_loop i (g ++ rest) arr b
    = archive_loop (i + List.length g) rest arr (fold_left push_bit g b).
Proof.
  induction g as [|v g IH]; intros i rest arr b Hj; cbn [archive_loop app List.length fold_left].
  - rewrite Nat.add_0_r. reflexivity.
  - assert (Hc : negb (Nat.eqb i 0) && Nat.eqb (Nat.modulo i 8) 0 = false).
    { destruct (Hj 0%nat ltac:(simpl; lia)) as [H0|H0]; rewrite Nat.add_0_r in H0.
      - rewrite H0. reflexivity.
      - apply Nat.eqb_neq in H0. rewrite H0, andb_false_r. reflexivity. }
    rewrite Hc.
    replace (i + S (List.length g))%nat with (S i + List.length g)%nat by lia.
    apply IH. intros j Hjl.
    replace (S i + j)%nat with (i + S j)%nat by lia.
    apply Hj. simpl. lia.
Qed.

(** The first value of a group at a positive multiple of 8 pushes the
    previous byte and restarts the accumulator. *)
Lemma archive_loop_group (g : list Z) : forall i rest arr b,
  g <> [] -> (List.length g <= 8)%nat ->
  Nat.modulo i 8 = 0%nat -> i <> 0%nat ->
  archive_loop i (g ++ rest) arr b
    = archive_loop (i + List.length g) rest (arr ++ [b]) (group_byte g).
Proof.
  intros i rest arr b Hne Hlen Hmod Hi.
  destruct g as [|v g]; [congruence|].
  cbn [archive_loop app List.length].
  assert (Hc : negb (Nat.eqb i 0) && Nat.eqb (Nat.modulo i 8) 0 = true).
  { apply Nat.eqb_neq in Hi. rewrite Hi, Hmod. reflexivity. }
  rewrite Hc.
  rewrite archive_loop_inner.
  - rewrite <- group_byte_push_bit by exact Hlen.
    replace (S i + List.length g)%nat with (i + S (List.length g))%nat by lia.
    reflexivity.
  - intros j Hj. right. simpl in Hlen.
    pose proof (Nat.div_mod_eq i 8) as Hdm. rewrite Hmod, Nat.add_0_r in Hdm.
    rewrite Hdm.
    replace (S (8 * (i / 8)) + j)%nat with (S j + (i / 8) * 8)%nat by lia.
    rewrite Nat.Div0.mod_add, Nat.mod_small by lia. lia.
Qed.

Lemma chunks_fuel_cons (f : nat) (w : list Z) :
  (1 <= f)%nat -> exists c cs, chunks_fuel f w = c :: cs.
Proof.
  intros Hf. destruct f as [|f]; [lia|]. cbn [chunks_fuel].
  destruct (Nat.leb (List.length w) 8); eauto.
Qed.

(** From a positive multiple of 8 on, the loop pushes the pending byte
    and then every group of [chunks_fuel] but the last one. *)
Lemma archive_loop_chunks (f : nat) : forall w i arr b,
  w <> [] -> (List.length w <= f)%nat ->
  Nat.modulo i 8 = 0%nat -> i <> 0%nat ->
  archive_loop i w arr b
    = (arr ++ b :: map group_byte (removelast (chunks_fuel f w)),
       group_byte (last (chunks_fuel f w) [])).
Proof.
  induction f as [|f IH]; intros w i arr b Hne Hlen Hmod Hi.
  - destruct w; [congruence | simpl in Hlen; lia].
  - cbn [chunks_fuel].
    destruct (Nat.leb (List.length w) 8) eqn:Hle.
    + apply Nat.leb_le in Hle.
      rewrite <- (app_nil_r w) at 1.
      rewrite archive_loop_group by assumption.
      reflexivity.
    + apply Nat.leb_gt in Hle.
      rewrite <- (firstn_skipn 8 w) at 1.
      assert (Hfl : List.length (firstn 8 w) = 8%nat)
        by (rewrite length_firstn; lia).
      rewrite archive_loop_group; try rewrite Hfl; try lia.
      2: { intros E. rewrite E in Hfl. discriminate. }
      assert (Hsk : skipn 8 w <> []).
      { intros E. pose proof (length_skipn 8 w) as L. rewrite E in L. simpl in L. lia. }
      rewrite (IH (skipn 8 w) (i + 8)%nat (arr ++ [b]) (group_byte (firstn 8 w)));
        try assumption.
      2: { rewrite length_skipn. lia. }
      2: { replace (i + 8)%nat with (i + 1 * 8)%nat by lia.
           rewrite Nat.Div0.mod_add. exact Hmod. }
      2: lia.
      destruct (chunks_fuel_cons f (skipn 8 w)) as [c [cs Hcs]]; [lia|].
      rewrite Hcs. rewrite <- app_assoc. reflexivity.
Qed.

(** [archive_bytes] on a non-empty window: one byte per group of 8, the
    last group's byte shifted left by exactly 7 bits on a [u8]. *)
Lemma archive_bytes_shape (w : list Z) :
  w <> [] ->
  archive_bytes w
    = map group_byte (removelast (chunks8 w))
      ++ [Z.land (Z.shiftl (group_byte (last (chunks8 w) [])) 7) 255].
Proof.
  intros Hne. unfold archive_bytes, chunks8.
  destruct (List.length w) as [|f] eqn:Hlen.
  { destruct w; [congruence | discriminate]. }
  cbn [chunks_fuel].
  destruct (Nat.leb (List.length w) 8) eqn:Hle.
  - apply Nat.leb_le in Hle.
    rewrite <- (app_nil_r w) at 1.
    rewrite archive_loop_inner.
    + rewrite group_byte_push_bit by lia. reflexivity.
    + intros j Hj. destruct j as [|j]; [left; reflexivity|right].
      rewrite Nat.mod_small by lia. lia.
  - apply Nat.leb_gt in Hle.
    rewrite <- (firstn_skipn 8 w) at 1.
    assert (Hfl : List.length (firstn 8 w) = 8%nat)
      by (rewrite length_firstn; lia).
    rewrite archive_loop_inner.
    2: { intros j Hj. rewrite Hfl in Hj. destruct j as [|j]; [left; reflexivity|right].
         rewrite Nat.mod_small by lia. lia. }
    rewrite Hfl, group_byte_push_bit by lia. change (0 + 8)%nat with 8%nat.
    assert (Hsk : skipn 8 w <> []).
    { intros E. pose proof (length_skipn 8 w) as L. rewrite E in L. simpl in L. lia. }
    rewrite (archive_loop_chunks f (skipn 8 w) 8 [] (group_byte (firstn 8 w)));
      try assumption; try reflexivity.
    2: { rewrite length_skipn. lia. }
    2: lia.
    destruct (chunks_fuel_cons f (skipn 8 w)) as [c [cs Hcs]]; [lia|].
    rewrite Hcs. reflexivity.
Qed.

(** * Lemmas on [update_habit] and [update_execution] *)

Lemma update_habit_eq (h : HabitExecution) (v : Z) (m : bool) :
  update_habit h v m =
  if Nat.leb MAX_EXECUTIONS (List.length (executions h)) then
    mkHabit (name h) (if manual_update h then [] else [v]) m
      (archived_executions h ++ [archive_token (executions h)])
  else
    mkHabit (name h) (executions h ++ (if manual_update h then [] else [v])) m
      (archived_executions h).
Proof.
  unfold update_habit, archive_execution.
  destruct (Nat.leb MAX_EXECUTIONS (List.length (executions h)));
    destruct (manual_update h); cbn; rewrite ?app_nil_r; reflexivity.
Qed.

Lemma update_habit_name (h : HabitExecution) (v : Z) (m : bool) :
  name (update_habit h v m) = name h.
Proof.
  rewrite update_habit_eq.
  destruct (Nat.leb MAX_EXECUTIONS (List.length (executions h))); reflexivity.
Qed.

Lemma update_habit_length_bound (h : HabitExecution) (v : Z) (m : bool) :
  (List.length (executions h) <= MAX_EXECUTIONS)%nat ->
  (List.length (executions (update_habit h v m)) <= MAX_EXECUTIONS)%nat.
Proof.
  intros Hb. rewrite update_habit_eq. unfold MAX_EXECUTIONS in *.
  destruct (Nat.leb 49 (List.length (executions h))) eqn:Hle;
    destruct (manual_update h); cbn [executions];
    rewrite ?length_app; cbn [List.length];
    try (apply Nat.leb_gt in Hle); lia.
Qed.

(** Windows of exactly 49 values: the shape of their groups. *)
Ltac destruct_window w H :=
  do 49 (destruct w as [|? w]; [cbn in H; discriminate|]);
  destruct w; [|cbn in H; discriminate].

Lemma chunks8_49 (w : list Z) :
  List.length w = 49%nat ->
  map (@List.length Z) (chunks8 w) = [8; 8; 8; 8; 8; 8; 1]%nat
  /\ List.concat (chunks8 w) = w
  /\ last (chunks8 w) [] = [nth 48 w 0].
Proof.
  intros H. destruct_window w H. repeat split; reflexivity.
Qed.

(** For a 49-value window the code's packing is the spec's packing. *)
Lemma archive_bytes_pack_spec_49 (w : list Z) :
  List.length w = 49%nat -> archive_bytes w = pack_spec w.
Proof.
  intros H.
  assert (Hne : w <> []) by (intros E; rewrite E in H; discriminate).
  destruct (chunks8_49 w H) as [_ [_ Hlast]].
  rewrite archive_bytes_shape by exact Hne.
  unfold pack_spec. rewrite Hlast. f_equal. f_equal.
  unfold group_byte, done_bit. cbn [fold_left List.length].
  destruct (Z.eqb (nth 48 w 0) 1); reflexivity.
Qed.

Lemma pack_spec_length_49 (w : list Z) :
  List.length w = 49%nat -> List.length (pack_spec w) = 7%nat.
Proof.
  intros H. destruct (chunks8_49 w H) as [Hl [_ _]].
  unfold pack_spec. rewrite length_app, length_map.
  assert (Hc : List.length (chunks8 w) = 7%nat)
    by (rewrite <- (length_map (@List.length Z)), Hl; reflexivity).
  destruct (chunks8 w) as [|c0 [|c1 [|c2 [|c3 [|c4 [|c5 [|c6 [|c7 cs]]]]]]]];
    cbn in Hc; try discriminate.
  reflexivity.
Qed.

Lemma update_execution_found (habits : list HabitExecution) (nm : string)
    (v : Z) (m : bool) :
  (exists h, In h habits /\ name h = nm) ->
  exists pre h post,
    habits = pre ++ h :: post
    /\ Forall (fun g => name g <> nm) pre
    /\ name h = nm
    /\ update_execution habits nm v m = (pre ++ update_habit h v m :: post, inl nm).
Proof.
  induction habits as [|g gs IH]; intros [h [Hin Hn]].
  - destruct Hin.
  - cbn [update_execution].
    destruct (String.eqb nm (name g)) eqn:E.
    + apply String.eqb_eq in E.
      exists [], g, gs. repeat split; auto.
    + apply String.eqb_neq in E.
      destruct Hin as [Hg|Hin]; [subst; congruence|].
      destruct IH as [pre [h' [post [Hs [Hpre [Hn' Hu]]]]]]; [eauto|].
      rewrite Hu. exists (g :: pre), h', post.
      subst gs. repeat split; auto.
Qed.

Lemma run_updates_invariant (ops : list (Z * bool)) : forall h,
  (List.length (executions h) <= MAX_EXECUTIONS)%nat ->
  (List.length (executions (run_updates h ops)) <= MAX_EXECUTIONS)%nat
  /\ List.length (archived_executions (run_updates h ops))
     = (List.length (archived_executions h) + full_window_updates h ops)%nat.
Proof.
  induction ops as [|[v m] ops IH]; intros h Hb; cbn [run_updates full_window_updates].
  - split; [exact Hb | lia].
  - destruct (IH (update_habit h v m)) as [H1 H2].
    { apply update_habit_length_bound; exact Hb. }
    split; [exact H1|]. rewrite H2.
    rewrite update_habit_eq.
    destruct (Nat.leb MAX_EXECUTIONS (List.length (executions h)));
      cbn [archived_executions]; rewrite ?length_app; cbn [List.length]; lia.
Qed.

(** * Claims *)

(** ** C1 *)

(** Claim C1, as stated: along a run of updates from a window of at most 49
    values, the archive gains one token exactly for the updates in which
    the window would otherwise grow past 49 values.  It does not: an update
    that starts on a full window with [manual_update = true] drops its
    value, so the window would stay at 49, yet the full window is still
    archived (the check in [update_habit] is unconditional) and the window
    ends empty. *)
Lemma C1_counterexample :
  let h0 := mkHabit "Test" (repeat 0%Z 49) true [] in
  let ops := [(-1, false)] in
  overflowing_updates h0 ops = 0%nat
  /\ List.length (archived_executions (run_updates h0 ops)) = 1%nat
  /\ List.length (archived_executions (run_updates h0 ops))
     <> (List.length (archived_executions h0) + overflowing_updates h0 ops)%nat
  /\ executions (run_updates h0 ops) = [].
Proof. vm_compute. repeat split; discriminate. Qed.

(** Claim C1 (amended): along every run of updates started from a window
    of at most 49 values, the window never holds more than 49 values and
    the archive gains exactly one token per update that starts on a full
    (49-value) window, whether or not that update writes its value.  In
    one such update the full window is archived and emptied, and the new
    value is then appended only when [manual_update] was false; any other
    update leaves the archive unchanged. *)
Theorem C1_window_bounded_archive_per_full_window
    (h : HabitExecution) (ops : list (Z * bool)) :
  (List.length (executions h) <= MAX_EXECUTIONS)%nat ->
  (List.length (executions (run_updates h ops)) <= MAX_EXECUTIONS)%nat
  /\ List.length (archived_executions (run_updates h ops))
     = (List.length (archived_executions h) + full_window_updates h ops)%nat
  /\ (forall v m,
        if Nat.leb MAX_EXECUTIONS (List.length (executions h)) then
          archived_executions (update_habit h v m)
            = archived_executions h ++ [archive_token (executions h)]
          /\ executions (update_habit h v m)
             = (if manual_update h then [] else [v])
        else archived_executions (update_habit h v m) = archived_executions h).
Proof.
  intros Hb.
  destruct (run_updates_invariant ops h Hb) as [H1 H2].
  split; [exact H1|]. split; [exact H2|].
  intros v m. rewrite update_habit_eq.
  destruct (Nat.leb MAX_EXECUTIONS (List.length (executions h)));
    cbn [archived_executions executions]; auto.
Qed.

Lemma C1_witness :
  (List.length (executions (mkHabit "Test" (repeat 0%Z 48) false [])) <= MAX_EXECUTIONS)%nat
  /\ List.length (archived_executions
       (run_updates (mkHabit "Test" (repeat 0%Z 48) false []) [(1, false); (-1, false)]))
     = 1%nat.
Proof.
  split; [vm_compute; lia|].
  destruct (C1_window_bounded_archive_per_full_window
              (mkHabit "Test" (repeat 0%Z 48) false []) [(1, false); (-1, false)])
    as [_ [H _]].
  - vm_compute. lia.
  - rewrite H. reflexivity.
Defined.

(** ** C2 *)

(** Claim C2, as stated: a mechanical update on a record whose flag is set
    leaves the window length unchanged.  It does not when the window is
    full: the full window is archived first and the window ends empty. *)
Lemma C2_counterexample :
  let h0 := mkHabit "Test" (repeat 0%Z 49) true [] in
  let h1 := update_habit h0 1 false in
  List.length (executions h1) = 0%nat
  /\ List.length (executions h1) <> List.length (executions h0)
  /\ manual_update h1 = false.
Proof. vm_compute. repeat split; discriminate. Qed.

(** Claim C2 (amended): for every value, an update with [is_manual=false]
    on a record whose [manual_update] is true sets the flag to false and
    leaves the window unchanged (so its length too) when it holds fewer
    than 49 values; when it holds 49 values it is archived (one token) and
    the window becomes empty. *)
Theorem C2_mechanical_after_manual (h : HabitExecution) (v : Z) :
  manual_update h = true ->
  manual_update (update_habit h v false) = false
  /\ ((List.length (executions h) < MAX_EXECUTIONS)%nat ->
      executions (update_habit h v false) = executions h)
  /\ ((MAX_EXECUTIONS <= List.length (executions h))%nat ->
      executions (update_habit h v false) = []
      /\ archived_executions (update_habit h v false)
         = archived_executions h ++ [archive_token (executions h)]).
Proof.
  intros Hm. rewrite update_habit_eq, Hm.
  destruct (Nat.leb MAX_EXECUTIONS (List.length (executions h))) eqn:Hle;
    cbn [manual_update executions archived_executions].
  - apply Nat.leb_le in Hle. repeat split; intros; auto; lia.
  - apply Nat.leb_gt in Hle. rewrite app_nil_r. repeat split; intros; auto; lia.
Qed.

Lemma C2_witness :
  manual_update (mkHabit "Test" [1; -1] true []) = true
  /\ executions (update_habit (mkHabit "Test" [1; -1] true []) (-1) false) = [1; -1].
Proof.
  split; [reflexivity|].
  destruct (C2_mechanical_after_manual (mkHabit "Test" [1; -1] true []) (-1))
    as [_ [H _]]; [reflexivity|].
  apply H. vm_compute. lia.
Defined.

(** ** C3 *)

(** Claim C3: on a full window with [manual_update = false], the update
    with value 1 appends exactly one token, the base64url encoding of the
    packed bitmap of the 49 prior values, and leaves the window [[1]]. *)
Theorem C3_full_window_archived_then_restarted (h : HabitExecution) :
  List.length (executions h) = MAX_EXECUTIONS ->
  manual_update h = false ->
  archived_executions (update_habit h 1 false)
    = archived_executions h ++ [b64url_encode (pack_spec (executions h))]
  /\ executions (update_habit h 1 false) = [1].
Proof.
  intros Hl Hm. rewrite update_habit_eq, Hl, Hm. cbn -[archive_token pack_spec].
  unfold archive_token. rewrite archive_bytes_pack_spec_49 by exact Hl.
  split; reflexivity.
Qed.

(** The window of the test [archive_habit_execution] of main.rs. *)
Lemma C3_witness :
  List.length (executions (mkHabit "Test" test_window false [])) = MAX_EXECUTIONS
  /\ archived_executions (update_habit (mkHabit "Test" test_window false []) 1 false)
     = ["wYAAAAABgA"%string].
Proof.
  split; [reflexivity|].
  destruct (C3_full_window_archived_then_restarted (mkHabit "Test" test_window false []))
    as [H _]; [reflexivity | reflexivity |].
  rewrite H. vm_compute. reflexivity.
Defined.

(** ** C4 *)

(** Claim C4 (a defect of the code): on a name that matches no record,
    [update_execution] leaves the vector unchanged and returns an error,
    but the error is the constant ["Habit  not found"] (with the doubled
    space where the name was to go): it does not identify the name. *)
Theorem C4_not_found_constant_error (habits : list HabitExecution)
    (nm : string) (v : Z) (m : bool) :
  Forall (fun h => name h <> nm) habits ->
  update_execution habits nm v m = (habits, inr "Habit  not found"%string).
Proof.
  induction habits as [|h hs IH]; intros Hall; [reflexivity|].
  inversion Hall as [|? ? Hh Hhs]; subst.
  cbn [update_execution].
  destruct (String.eqb nm (name h)) eqn:E.
  - apply String.eqb_eq in E. congruence.
  - rewrite IH by exact Hhs. reflexivity.
Qed.

Lemma C4_witness :
  Forall (fun h => name h <> "X"%string) [new_habit "Test"]
  /\ update_execution [new_habit "Test"] "X" (-1) false
     = ([new_habit "Test"], inr "Habit  not found"%string).
Proof.
  assert (Hf : Forall (fun h => name h <> "X"%string) [new_habit "Test"]).
  { constructor; [cbn; discriminate | constructor]. }
  split; [exact Hf|].
  apply C4_not_found_constant_error. exact Hf.
Defined.

(** ** C5 *)

(** Claim C5: a 49-value window is cut into 6 groups of 8 and one group of
    1; each group becomes one byte (shift left, low bit set for a value 1,
    so -1 and 0 both give 0), the last group left-aligned by [8 - 1] bits;
    [archive_execution] appends the base64url encoding of these 7 bytes
    and empties the window. *)
Theorem C5_archive_packing_49 (h : HabitExecution) :
  List.length (executions h) = MAX_EXECUTIONS ->
  map (@List.length Z) (chunks8 (executions h)) = [8; 8; 8; 8; 8; 8; 1]%nat
  /\ List.concat (chunks8 (executions h)) = executions h
  /\ archive_bytes (executions h) = pack_spec (executions h)
  /\ List.length (pack_spec (executions h)) = 7%nat
  /\ archive_execution h
     = mkHabit (name h) [] (manual_update h)
         (archived_executions h ++ [b64url_encode (pack_spec (executions h))]).
Proof.
  intros Hl.
  destruct (chunks8_49 (executions h) Hl) as [H1 [H2 _]].
  pose proof (archive_bytes_pack_spec_49 (executions h) Hl) as H3.
  repeat split; auto.
  - apply pack_spec_length_49. exact Hl.
  - unfold archive_execution, archive_token. rewrite H3. reflexivity.
Qed.

Lemma C5_witness :
  List.length (executions (mkHabit "Test" test_window false [])) = MAX_EXECUTIONS
  /\ pack_spec test_window = [193; 128; 0; 0; 0; 1; 128].
Proof.
  split; [reflexivity|].
  destruct (C5_archive_packing_49 (mkHabit "Test" test_window false []))
    as [_ [_ [H _]]]; [reflexivity|].
  cbn [executions] in H. rewrite <- H. vm_compute. reflexivity.
Defined.

(** ** C6 *)

(** The display rule of section 6 of the spec, index by index. *)
Definition display_symbol_spec (h : HabitExecution) (x : nat) : Colored :=
  if Nat.ltb x (List.length (executions h)) then
    if Z.eqb (nth x (executions h) 0) 1 then ("X", "green")%string
    else ("O", "red")%string
  else if Nat.eqb x (List.length (executions h)) && negb (manual_update h)
  then ("T", "orange")%string
  else ("."%string, "blue"%string).

Lemma display_loop_length (h : HabitExecution) (n : nat) : forall x t,
  List.length (display_loop n x t h) = n.
Proof.
  induction n as [|n IH]; intros x t; [reflexivity|].
  cbn [display_loop].
  destruct (Nat.leb (List.length (executions h)) x);
    [destruct (Bool.eqb t true && Bool.eqb (manual_update h) false)|];
    cbn [List.length]; rewrite IH; reflexivity.
Qed.

(** The captured flag is [true] exactly while no index has reached the
    window length, or always when [manual_update] is set. *)
Lemma display_loop_nth (h : HabitExecution) (n : nat) : forall x k t,
  t = (Nat.leb x (List.length (executions h)) || manual_update h)%bool ->
  (k < n)%nat ->
  nth k (display_loop n x t h) (EmptyString, EmptyString)
    = display_symbol_spec h (x + k).
Proof.
  induction n as [|n IH]; intros x k t Ht Hk; [lia|].
  cbn [display_loop].
  set (len := List.length (executions h)) in *.
  destruct k as [|k].
  - rewrite Nat.add_0_r. unfold display_symbol_spec. fold len.
    destruct (Nat.leb_spec len x) as [Hx|Hx].
    + replace (Nat.ltb x len) with false by (symmetry; apply Nat.ltb_ge; lia).
      subst t. destruct (manual_update h); cbn.
      * rewrite orb_true_r. destruct (Nat.eqb x len); reflexivity.
      * destruct (Nat.leb_spec x len); destruct (Nat.eqb_spec x len);
          cbn; try reflexivity; lia.
    + replace (Nat.ltb x len) with true by (symmetry; apply Nat.ltb_lt; lia).
      destruct (Z.eqb (nth x (executions h) 0) 1); reflexivity.
  - replace (x + S k)%nat with (S x + k)%nat by lia.
    destruct (Nat.leb_spec len x) as [Hx|Hx].
    + subst t. destruct (manual_update h).
      * rewrite !orb_true_r. cbn [Bool.eqb andb nth].
        apply IH; [rewrite orb_true_r; reflexivity | lia].
      * rewrite !orb_false_r.
        destruct (Nat.leb_spec x len) as [Hxl|Hxl];
          cbn [Bool.eqb andb nth]; apply IH; try lia;
          rewrite orb_false_r; symmetry; apply Nat.leb_gt; lia.
    + cbn [nth]. apply IH; [|lia]. subst t.
      destruct (Nat.leb_spec x len); destruct (Nat.leb_spec (S x) len);
        try reflexivity; lia.
Qed.

(** Claim C6: the display of a record has 49 symbols; below the window
    length, done ("X") exactly for a stored 1 and not-done ("O")
    otherwise; from the window length on, the today marker ("T") only at
    the window length itself and only when [manual_update] is false, the
    unfilled marker (".") everywhere else. *)
Theorem C6_display_symbols (h : HabitExecution) :
  List.length (map_executions_to_display_chars h) = 49%nat
  /\ forall x, (x < 49)%nat ->
     nth x (map_executions_to_display_chars h) (EmptyString, EmptyString)
       = display_symbol_spec h x.
Proof.
  split.
  - apply display_loop_length.
  - intros x Hx. unfold map_executions_to_display_chars.
    apply (display_loop_nth h 49 0 x true); [|exact Hx].
    reflexivity.
Qed.

(** ** C7 *)

(** Claim C7: the token of 49 done values decodes to six [0xFF] bytes and
    [0x80]: every bit set but the 7 alignment bits of the last byte. *)
Theorem C7_all_done_roundtrip :
  b64url_decode (archive_token (repeat 1 49))
    = Some [255; 255; 255; 255; 255; 255; 128]
  /\ archive_bytes (repeat 1 49) = [255; 255; 255; 255; 255; 255; 128]
  /\ archive_token (repeat 1 49) = "________gA"%string
  /\ forallb (fun k => Bool.eqb
                (Z.testbit (nth (k / 8) (archive_bytes (repeat 1 49)) 0)
                           (Z.of_nat (7 - k mod 8)))
                (Nat.ltb k 49))
       (seq 0 56) = true.
Proof. vm_compute. repeat split. Qed.

(** ** C8 *)

(** Claim C8: the scenario of the test [test_mechanical_update]. *)
Theorem C8_mechanical_manual_scenario (nm : string) (arch : list string) :
  let r0 := mkHabit nm [] true arch in
  let r1 := update_habit r0 (-1) false in
  let r2 := update_habit r1 1 true in
  let r3 := update_habit r2 (-1) false in
  List.length (executions r1) = 0%nat /\ manual_update r1 = false
  /\ executions r2 = [1] /\ manual_update r2 = true
  /\ List.length (executions r3) = 1%nat /\ manual_update r3 = false.
Proof. cbn. repeat split. Qed.

(** ** C9 *)

(** Claim C9: when some record carries the name, [update_execution] only
    replaces the first such record by its update, whose name is kept, and
    leaves every other record as it was. *)
Theorem C9_update_frame (habits : list HabitExecution) (nm : string)
    (v : Z) (m : bool) :
  (exists h, In h habits /\ name h = nm) ->
  exists pre h post,
    habits = pre ++ h :: post
    /\ Forall (fun g => name g <> nm) pre
    /\ name h = nm
    /\ fst (update_execution habits nm v m) = pre ++ update_habit h v m :: post
    /\ snd (update_execution habits nm v m) = inl nm
    /\ name (update_habit h v m) = name h.
Proof.
  intros Hex.
  destruct (update_execution_found habits nm v m Hex)
    as [pre [h [post [Hs [Hpre [Hn Hu]]]]]].
  exists pre, h, post. rewrite Hu.
  repeat split; auto using update_habit_name.
Qed.

Lemma C9_witness :
  (exists h, In h [new_habit "A"; new_habit "B"; new_habit "B"]
             /\ name h = "B"%string)
  /\ exists pre h post,
       fst (update_execution [new_habit "A"; new_habit "B"; new_habit "B"] "B" 1 true)
         = pre ++ update_habit h 1 true :: post.
Proof.
  assert (Hex : exists h, In h [new_habit "A"; new_habit "B"; new_habit "B"]
                          /\ name h = "B"%string).
  { exists (new_habit "B"). split; [cbn; auto | reflexivity]. }
  split; [exact Hex|].
  destruct (C9_update_frame _ "B" 1 true Hex)
    as [pre [h [post [_ [_ [_ [Hf _]]]]]]].
  exists pre, h, post. exact Hf.
Defined.

(** ** C10 *)

(** Claim C10: [archive_execution] is total on windows of any length: it
    appends exactly one token and empties the window; on a non-empty
    window the final accumulator is shifted left by 7 bits (on a [u8])
    whatever the size of the final group; the empty window gives the
    encoding of the single byte 0. *)
Theorem C10_archive_total (h : HabitExecution) :
  List.length (archived_executions (archive_execution h))
    = S (List.length (archived_executions h))
  /\ archived_executions (archive_execution h)
     = archived_executions h ++ [archive_token (executions h)]
  /\ executions (archive_execution h) = []
  /\ (executions h <> [] ->
      archive_bytes (executions h)
        = map group_byte (removelast (chunks8 (executions h)))
          ++ [Z.land (Z.shiftl (group_byte (last (chunks8 (executions h)) [])) 7) 255])
  /\ (executions h = [] ->
      archived_executions (archive_execution h)
        = archived_executions h ++ [b64url_encode [0]]).
Proof.
  unfold archive_execution. cbn [archived_executions executions].
  repeat split.
  - rewrite length_app. cbn. lia.
  - apply archive_bytes_shape.
  - intros E. rewrite E. reflexivity.
Qed.

(** * Further properties of the code *)

(** ** Helpers on the collection operations *)

Lemma update_execution_at (l1 : list HabitExecution) (h : HabitExecution)
    (l2 : list HabitExecution) (n : string) (v : Z) (m : bool) :
  Forall (fun g => name g <> n) l1 -> name h = n ->
  update_execution (l1 ++ h :: l2) n v m = (l1 ++ update_habit h v m :: l2, inl n).
Proof.
  intros Hl1 Hh. induction Hl1 as [|g l1 Hg Hl1 IH]; cbn [app update_execution].
  - rewrite Hh, String.eqb_refl. reflexivity.
  - destruct (String.eqb n (name g)) eqn:E.
    + apply String.eqb_eq in E. congruence.
    + rewrite IH. reflexivity.
Qed.

Lemma update_execution_missing (hs : list HabitExecution) (n : string) (v : Z) (m : bool) :
  existsb (String.eqb n) (map name hs) = false ->
  update_execution hs n v m = (hs, inr "Habit  not found"%string).
Proof.
  induction hs as [|h hs IH]; intros Hno; [reflexivity|].
  cbn [map existsb] in Hno. apply orb_false_iff in Hno as [E Hno].
  cbn [update_execution]. rewrite E, IH by exact Hno. reflexivity.
Qed.

Lemma update_execution_names (hs : list HabitExecution) (n : string) (v : Z) (m : bool) :
  map name (fst (update_execution hs n v m)) = map name hs.
Proof.
  induction hs as [|h hs IH]; [reflexivity|]. cbn [update_execution].
  destruct (String.eqb n (name h)).
  - cbn [fst map]. rewrite update_habit_name. reflexivity.
  - destruct (update_execution hs n v m) as [hs' r] eqn:E.
    cbn [fst map] in IH |- *. rewrite IH. reflexivity.
Qed.

Lemma update_names_names (ns : list string) : forall v m hs,
  map name (update_names ns v m hs) = map name hs.
Proof.
  induction ns as [|n ns IH]; intros v m hs; [reflexivity|].
  cbn [update_names]. rewrite IH. apply update_execution_names.
Qed.

(** A marked record whose window is not full is left as it is by an update
    that keeps the mark. *)
Lemma update_habit_marked (h : HabitExecution) (v : Z) :
  manual_update h = true ->
  (List.length (executions h) < MAX_EXECUTIONS)%nat ->
  update_habit h v true = h.
Proof.
  intros Hm Hl. rewrite update_habit_eq, Hm.
  replace (Nat.leb MAX_EXECUTIONS (List.length (executions h))) with false
    by (symmetry; apply Nat.leb_gt; exact Hl).
  rewrite app_nil_r. destruct h; cbn in *; subst; reflexivity.
Qed.

Lemma run_manual_marked (k : nat) : forall h,
  manual_update h = true ->
  (List.length (executions h) < MAX_EXECUTIONS)%nat ->
  run_updates h (repeat (1, true) k) = h.
Proof.
  induction k as [|k IH]; intros h Hm Hl; [reflexivity|].
  cbn [repeat run_updates]. rewrite update_habit_marked by assumption.
  apply IH; assumption.
Qed.

Lemma run_updates_app (h : HabitExecution) (ops1 ops2 : list (Z * bool)) :
  run_updates h (ops1 ++ ops2) = run_updates (run_updates h ops1) ops2.
Proof.
  revert h. induction ops1 as [|[v m] ops1 IH]; intros h; [reflexivity|].
  cbn. apply IH.
Qed.

(** ** X1: [add_new_habit] performs no uniqueness check *)

(** A record added under a name already present is shadowed:
    [update_execution] on that name still updates the earlier record and
    never reaches the new one; under a fresh name the new record is the
    one updated. *)
Theorem X1_add_new_habit_shadowed (hs : list HabitExecution) (n : string)
    (v : Z) (m : bool) :
  update_execution (add_new_habit n hs) n v m
  = if existsb (String.eqb n) (map name hs)
    then (fst (update_execution hs n v m) ++ [new_habit n], inl n)
    else (hs ++ [update_habit (new_habit n) v m], inl n).
Proof.
  unfold add_new_habit.
  induction hs as [|h hs IH]; cbn [app update_execution map existsb].
  - rewrite String.eqb_refl. reflexivity.
  - destruct (String.eqb n (name h)); cbn [orb fst]; [reflexivity|].
    rewrite IH.
    destruct (existsb (String.eqb n) (map name hs)); cbn [fst].
    + destruct (update_execution hs n v m); reflexivity.
    + reflexivity.
Qed.

(** ** X2: the update loops keep the collection's names *)

(** The loops of [perform_user_updates] and [perform_mechanical_update]
    never add, remove, reorder or rename records: the list of names is the
    same before and after, whatever names are requested. *)
Theorem X2_update_loops_keep_names (names : list string) (hs : list HabitExecution) :
  map name (perform_user_updates_loop names hs) = map name hs
  /\ map name (perform_mechanical_update_loop hs) = map name hs.
Proof.
  split; apply update_names_names.
Qed.

(** ** X3: the result of [update_execution] *)

(** [update_execution] returns [Ok name] exactly when some record carries
    the name, and the constant error otherwise. *)
Theorem X3_update_execution_result (hs : list HabitExecution) (n : string)
    (v : Z) (m : bool) :
  snd (update_execution hs n v m)
  = if existsb (String.eqb n) (map name hs) then inl n
    else inr "Habit  not found"%string.
Proof.
  induction hs as [|h hs IH]; [reflexivity|].
  cbn [update_execution map existsb].
  destruct (String.eqb n (name h)); [reflexivity|].
  cbn [orb]. destruct (update_execution hs n v m) as [hs' r]. exact IH.
Qed.

(** ** X4: unknown names do not disturb a batch of user updates *)

(** In [perform_user_updates], requested names that match no record are
    skipped and do not affect the others: the result is that of the batch
    restricted to the known names. *)
Theorem X4_user_updates_skip_unknown (names : list string) (hs : list HabitExecution) :
  perform_user_updates_loop names hs
  = perform_user_updates_loop
      (filter (fun n => existsb (String.eqb n) (map name hs)) names) hs.
Proof.
  unfold perform_user_updates_loop.
  revert hs. induction names as [|n ns IH]; intros hs; [reflexivity|].
  cbn [update_names filter].
  destruct (existsb (String.eqb n) (map name hs)) eqn:E.
  - cbn [update_names]. rewrite IH.
    rewrite update_execution_names. reflexivity.
  - rewrite update_execution_missing by exact E. cbn [fst]. apply IH.
Qed.

(** ** X5: the mechanical pass on distinct names *)

Lemma update_names_distinct (v : Z) (m : bool) (post : list HabitExecution) :
  forall pre,
  NoDup (map name (pre ++ post)) ->
  update_names (map name post) v m (map (fun r => update_habit r v m) pre ++ post)
  = map (fun r => update_habit r v m) (pre ++ post).
Proof.
  induction post as [|p post IH]; intros pre Hnd.
  - rewrite !app_nil_r. reflexivity.
  - cbn [map update_names].
    rewrite update_execution_at.
    + cbn [fst].
      replace (map (fun r => update_habit r v m) pre ++ update_habit p v m :: post)
        with (map (fun r => update_habit r v m) (pre ++ [p]) ++ post)
        by (rewrite map_app, <- app_assoc; reflexivity).
      rewrite IH.
      * rewrite <- app_assoc. reflexivity.
      * rewrite <- app_assoc. exact Hnd.
    + rewrite map_app in Hnd. cbn [map] in Hnd.
      apply NoDup_remove_2 in Hnd.
      apply Forall_forall. intros g Hg Heq. apply Hnd.
      apply in_or_app. left.
      apply in_map_iff in Hg as [r [Hr Hin]]. subst g.
      rewrite update_habit_name in Heq. rewrite <- Heq. apply in_map. exact Hin.
    + reflexivity.
Qed.

(** When the names of the collection are pairwise distinct, the loop of
    [perform_mechanical_update] applies [update_habit r (-1) false] to
    every record exactly once, in place. *)
Theorem X5_mechanical_update_distinct (hs : list HabitExecution) :
  NoDup (map name hs) ->
  perform_mechanical_update_loop hs = map (fun r => update_habit r (-1) false) hs.
Proof.
  intros Hnd. unfold perform_mechanical_update_loop.
  apply (update_names_distinct (-1) false hs []). exact Hnd.
Qed.

Lemma X5_witness :
  NoDup (map name [new_habit "A"; new_habit "B"])
  /\ map executions (perform_mechanical_update_loop [new_habit "A"; new_habit "B"])
     = [[-1]; [-1]].
Proof.
  assert (Hnd : NoDup (map name [new_habit "A"; new_habit "B"])).
  { cbn. constructor.
    - intros [E|[]]. discriminate.
    - constructor; [intros []| constructor]. }
  split; [exact Hnd|].
  rewrite (X5_mechanical_update_distinct _ Hnd). reflexivity.
Defined.

(** ** X6: the mechanical pass on a duplicated name *)

(** With two records of the same name, the mechanical pass looks the name
    up twice and finds the first record both times: the first record is
    updated twice and the second never. *)
Theorem X6_mechanical_update_duplicate (a b : HabitExecution) :
  name a = name b ->
  perform_mechanical_update_loop [a; b]
  = [update_habit (update_habit a (-1) false) (-1) false; b].
Proof.
  intros Hab. unfold perform_mechanical_update_loop.
  cbn [map update_names update_execution].
  rewrite String.eqb_refl. cbn [fst update_execution].
  rewrite update_habit_name, Hab, String.eqb_refl. reflexivity.
Qed.

Lemma X6_witness :
  name (new_habit "A") = name (new_habit "A")
  /\ map executions (perform_mechanical_update_loop [new_habit "A"; new_habit "A"])
     = [[-1; -1]; []].
Proof.
  split; [reflexivity|].
  rewrite X6_mechanical_update_duplicate by reflexivity. reflexivity.
Defined.

(** ** X7: one entry per day *)

(** Starting from an unmarked record whose window has room (fewer than 48
    values), a day made of one or more user updates followed by the
    mechanical update appends exactly one value 1 and leaves the record
    unmarked; a day with the mechanical update only appends exactly one
    -1.  The archive is untouched. *)
Theorem X7_one_entry_per_day (h : HabitExecution) (k : nat) :
  manual_update h = false ->
  (List.length (executions h) < 48)%nat ->
  run_updates h (repeat (1, true) (S k) ++ [(-1, false)])
    = mkHabit (name h) (executions h ++ [1]) false (archived_executions h)
  /\ run_updates h [(-1, false)]
    = mkHabit (name h) (executions h ++ [-1]) false (archived_executions h).
Proof.
  intros Hm Hl.
  assert (Hlt : Nat.leb MAX_EXECUTIONS (List.length (executions h)) = false)
    by (apply Nat.leb_gt; unfold MAX_EXECUTIONS; lia).
  split.
  - rewrite run_updates_app. cbn [repeat run_updates].
    rewrite run_manual_marked.
    + cbn [run_updates]. rewrite (update_habit_eq (update_habit h 1 true)).
      rewrite update_habit_eq, Hlt, Hm. cbn [name executions manual_update archived_executions].
      rewrite length_app. cbn [List.length].
      replace (Nat.leb MAX_EXECUTIONS (List.length (executions h) + 1)) with false
        by (symmetry; apply Nat.leb_gt; unfold MAX_EXECUTIONS; lia).
      rewrite app_nil_r. reflexivity.
    + rewrite update_habit_eq, Hlt. reflexivity.
    + rewrite update_habit_eq, Hlt, Hm. cbn [executions].
      rewrite length_app. cbn [List.length]. unfold MAX_EXECUTIONS. lia.
  - cbn [run_updates]. rewrite update_habit_eq, Hlt, Hm. reflexivity.
Qed.

Lemma X7_witness :
  manual_update (new_habit "A") = false
  /\ (List.length (executions (new_habit "A")) < 48)%nat
  /\ executions (run_updates (new_habit "A") [(1, true); (1, true); (-1, false)]) = [1].
Proof.
  split; [reflexivity|]. split; [cbn; lia|].
  destruct (X7_one_entry_per_day (new_habit "A") 1) as [H _];
    [reflexivity | cbn; lia |].
  change [(1, true); (1, true); (-1, false)] with (repeat (1, true) 2 ++ [(-1, false)]).
  rewrite H. reflexivity.
Defined.

(** ** X8: a repeated user update *)

(** A user update on a record already marked by a user update leaves it
    exactly as it is while its window has fewer than 49 values; on a full
    window it still archives the window and leaves it empty. *)
Theorem X8_user_update_on_marked (h : HabitExecution) (v : Z) :
  manual_update h = true ->
  ((List.length (executions h) < MAX_EXECUTIONS)%nat -> update_habit h v true = h)
  /\ (List.length (executions h) = MAX_EXECUTIONS ->
      update_habit h v true
      = mkHabit (name h) [] true
          (archived_executions h ++ [archive_token (executions h)])).
Proof.
  intros Hm. split.
  - apply update_habit_marked. exact Hm.
  - intros Hl. rewrite update_habit_eq, Hl, Hm. reflexivity.
Qed.

Lemma X8_witness :
  manual_update (mkHabit "A" [1] true []) = true
  /\ update_habit (mkHabit "A" [1] true []) 1 true = mkHabit "A" [1] true [].
Proof.
  split; [reflexivity|].
  apply (proj1 (X8_user_update_on_marked (mkHabit "A" [1] true []) 1 eq_refl)).
  cbn. unfold MAX_EXECUTIONS. lia.
Defined.

(** ** X9: archived tokens are never lost *)

(** Along any run of updates the record keeps its name, and its archive
    only grows at the end: every token present before is still there, in
    the same order, followed by the tokens of the windows archived on the
    way. *)
Theorem X9_archive_only_grows (ops : list (Z * bool)) (h : HabitExecution) :
  name (run_updates h ops) = name h
  /\ exists tokens,
       archived_executions (run_updates h ops) = archived_executions h ++ tokens.
Proof.
  revert h. induction ops as [|[v m] ops IH]; intros h.
  - split; [reflexivity|]. exists []. rewrite app_nil_r. reflexivity.
  - cbn [run_updates]. destruct (IH (update_habit h v m)) as [Hn [t Ht]].
    split; [rewrite Hn; apply update_habit_name|].
    rewrite Ht, update_habit_eq.
    destruct (Nat.leb MAX_EXECUTIONS (List.length (executions h)));
      cbn [archived_executions].
    + exists (archive_token (executions h) :: t). rewrite <- app_assoc. reflexivity.
    + exists t. reflexivity.
Qed.

(** ** X10: [parse_matches] never starts an action without its inputs *)


(** ** X11: the columns shown by [display_habits] *)

(** [display_habits] shows, for each requested name in order, one column
    per record carrying that name, in collection order: a duplicated name
    gives several columns and an unknown name none (without error).  Every
    column has 49 symbols, so the grid loop's indices [0..49) stay in
    bounds. *)
Theorem X11_display_columns (habit_names : list string) (hs : list HabitExecution) :
  display_collect habit_names hs
  = flat_map (fun n => map map_executions_to_display_chars
                          (filter (fun h => String.eqb (name h) n) hs))
      habit_names
  /\ Forall (fun col => List.length col = MAX_EXECUTIONS)
       (display_collect habit_names hs).
Proof.
  assert (Hfor : forall n, display_collect_for n hs
          = map map_executions_to_display_chars (filter (fun h => String.eqb (name h) n) hs)).
  { intros n. induction hs as [|h hs IH]; [reflexivity|].
    cbn [display_collect_for filter]. destruct (String.eqb (name h) n); cbn [map];
      rewrite IH; reflexivity. }
  assert (Heq : display_collect habit_names hs
          = flat_map (fun n => map map_executions_to_display_chars
                                 (filter (fun h => String.eqb (name h) n) hs))
              habit_names).
  { induction habit_names as [|n ns IH]; [reflexivity|].
    cbn [display_collect flat_map]. rewrite Hfor, IH. reflexivity. }
  split; [exact Heq|].
  rewrite Heq. apply Forall_forall. intros col Hc.
  apply in_flat_map in Hc as [n [_ Hc]].
  apply in_map_iff in Hc as [h [Hh _]]. subst col.
  apply display_loop_length.
Qed.

(** ** X12: the size of an archive token *)

(** The token archived for a full (49-value) window is always 10
    characters long (7 bytes in unpadded base64). *)
Theorem X12_token_length (w : list Z) :
  List.length w = MAX_EXECUTIONS -> String.length (archive_token w) = 10%nat.
Proof.
  intros Hl. unfold archive_token.
  rewrite archive_bytes_pack_spec_49 by exact Hl.
  pose proof (pack_spec_length_49 w Hl) as H7.
  destruct (pack_spec w) as [|b0 [|b1 [|b2 [|b3 [|b4 [|b5 [|b6 [|b7 bs]]]]]]]];
    cbn in H7; try discriminate.
  reflexivity.
Qed.

Lemma X12_witness :
  List.length test_window = MAX_EXECUTIONS
  /\ String.length (archive_token test_window) = 10%nat.
Proof.
  split; [reflexivity|]. apply X12_token_length. reflexivity.
Defined.

(** ** X13: archive tokens decode to the packed bytes *)

Definition byte_values (n : nat) : list Z := map Z.of_nat (seq 0 n).

Lemma in_byte_values (n : nat) (a : Z) :
  0 <= a < Z.of_nat n -> In a (byte_values n).
Proof.
  intros Ha. unfold byte_values.
  replace a with (Z.of_nat (Z.to_nat a)) by lia.
  apply in_map, in_seq. lia.
Qed.

Lemma forall_bytes (n : nat) (P : Z -> bool) :
  forallb P (byte_values n) = true -> forall a, 0 <= a < Z.of_nat n -> P a = true.
Proof.
  intros H a Ha. rewrite forallb_forall in H. apply H, in_byte_values, Ha.
Qed.

Definition in_range (lo hi x : Z) : bool := (Z.leb lo x && Z.ltb x hi)%bool.

Lemma in_range_iff (lo hi x : Z) : in_range lo hi x = true <-> lo <= x < hi.
Proof.
  unfold in_range. rewrite andb_true_iff, Z.leb_le, Z.ltb_lt. reflexivity.
Qed.

(** The symbol table and its inverse. *)
Definition sym_ok (s : Z) : bool :=
  match b64_index_from (b64_sym s) b64_alphabet 0 with
  | Some t => Z.eqb t s
  | None => false
  end.

Lemma b64_sym_index (s : Z) :
  0 <= s < 64 -> b64_index_from (b64_sym s) b64_alphabet 0 = Some s.
Proof.
  intros Hs.
  pose proof (forall_bytes 64 sym_ok ltac:(vm_compute; reflexivity) s Hs) as H.
  unfold sym_ok in H.
  destruct (b64_index_from (b64_sym s) b64_alphabet 0); [|discriminate].
  apply Z.eqb_eq in H. subst. reflexivity.
Qed.

(** Bit identities of the 3-byte to 4-sextet split, checked on all bytes. *)
Definition single_ok (a : Z) : bool :=
  Z.eqb (Z.lor (Z.shiftl (Z.shiftr a 2) 2) (Z.land a 3)) a
  && Z.eqb (Z.lor (Z.shiftl (Z.shiftr a 4) 4) (Z.land a 15)) a
  && Z.eqb (Z.lor (Z.shiftl (Z.shiftr a 6) 6) (Z.land a 63)) a
  && in_range 0 64 (Z.shiftr a 2) && in_range 0 64 (Z.land a 63)
  && Z.eqb (Z.shiftr (Z.shiftl (Z.land a 3) 4) 4) (Z.land a 3)
  && in_range 0 64 (Z.shiftl (Z.land a 3) 4)
  && Z.eqb (Z.shiftr (Z.shiftl (Z.land a 15) 2) 2) (Z.land a 15)
  && in_range 0 64 (Z.shiftl (Z.land a 15) 2).

Definition pair_ok (a b : Z) : bool :=
  let s1 := Z.lor (Z.shiftl (Z.land a 3) 4) (Z.shiftr b 4) in
  let s2 := Z.lor (Z.shiftl (Z.land a 15) 2) (Z.shiftr b 6) in
  Z.eqb (Z.shiftr s1 4) (Z.land a 3) && Z.eqb (Z.land s1 15) (Z.shiftr b 4)
  && in_range 0 64 s1
  && Z.eqb (Z.shiftr s2 2) (Z.land a 15) && Z.eqb (Z.land s2 3) (Z.shiftr b 6)
  && in_range 0 64 s2.

Lemma single_facts (a : Z) : 0 <= a < 256 -> single_ok a = true.
Proof.
  apply (forall_bytes 256 single_ok). vm_compute. reflexivity.
Qed.

Lemma pair_facts (a b : Z) : 0 <= a < 256 -> 0 <= b < 256 -> pair_ok a b = true.
Proof.
  intros Ha Hb.
  assert (H : forallb (fun a => forallb (pair_ok a) (byte_values 256)) (byte_values 256) = true)
    by (vm_compute; reflexivity).
  exact (forall_bytes 256 (pair_ok a) (forall_bytes 256 _ H a Ha) b Hb).
Qed.

Ltac bool_facts H :=
  repeat match type of H with
  | (_ && _)%bool = true => apply andb_true_iff in H; destruct H as [H ?]
  end.

Lemma b64_roundtrip (n : nat) : forall bs,
  (List.length bs <= n)%nat -> Forall (fun b => 0 <= b < 256) bs ->
  exists xs, b64_sextets (b64url_encode bs) = Some xs /\ b64_join xs = Some bs.
Proof.
  induction n as [|n IH]; intros bs Hlen Hr.
  - destruct bs; [exists []; split; reflexivity | cbn in Hlen; lia].
  - destruct bs as [|a [|b [|c rest]]].
    + exists []. split; reflexivity.
    + inversion Hr as [|? ? Ha _]; subst.
      pose proof (single_facts a Ha) as Sa. unfold single_ok in Sa. bool_facts Sa.
      repeat match goal with H : in_range _ _ _ = true |- _ => apply in_range_iff in H end.
      repeat match goal with H : Z.eqb _ _ = true |- _ => apply Z.eqb_eq in H end.
      eexists. cbn [b64url_encode b64_sextets].
      rewrite !b64_sym_index by assumption. split; [reflexivity|].
      cbn [b64_join]. do 2 f_equal. congruence.
    + inversion Hr as [|? ? Ha Hr']; subst. inversion Hr' as [|? ? Hb _]; subst.
      pose proof (single_facts a Ha) as Sa. unfold single_ok in Sa. bool_facts Sa.
      pose proof (single_facts b Hb) as Sb. unfold single_ok in Sb. bool_facts Sb.
      pose proof (pair_facts a b Ha Hb) as Pab. unfold pair_ok in Pab. bool_facts Pab.
      repeat match goal with H : in_range _ _ _ = true |- _ => apply in_range_iff in H end.
      repeat match goal with H : Z.eqb _ _ = true |- _ => apply Z.eqb_eq in H end.
      eexists. cbn [b64url_encode b64_sextets].
      rewrite !b64_sym_index by assumption. split; [reflexivity|].
      cbn [b64_join]. f_equal. f_equal; [|f_equal].
      * congruence.
      * congruence.
    + inversion Hr as [|? ? Ha Hr1]; subst. inversion Hr1 as [|? ? Hb Hr2]; subst.
      inversion Hr2 as [|? ? Hc Hrest]; subst.
      pose proof (single_facts a Ha) as Sa. unfold single_ok in Sa. bool_facts Sa.
      pose proof (single_facts b Hb) as Sb. unfold single_ok in Sb. bool_facts Sb.
      pose proof (single_facts c Hc) as Sc. unfold single_ok in Sc. bool_facts Sc.
      pose proof (pair_facts a b Ha Hb) as Pab. unfold pair_ok in Pab. bool_facts Pab.
      pose proof (pair_facts b c Hb Hc) as Pbc. unfold pair_ok in Pbc. bool_facts Pbc.
      repeat match goal with H : in_range _ _ _ = true |- _ => apply in_range_iff in H end.
      repeat match goal with H : Z.eqb _ _ = true |- _ => apply Z.eqb_eq in H end.
      destruct (IH rest) as [xs [Hxs Hj]]; [cbn in Hlen; lia | exact Hrest |].
      eexists. cbn [b64url_encode b64_sextets].
      rewrite !b64_sym_index by assumption. rewrite Hxs. split; [reflexivity|].
      cbn [b64_join]. rewrite Hj. f_equal.
      f_equal; [congruence|]. f_equal; [congruence|]. f_equal. congruence.
Qed.

Definition push_bit_ok (b : Z) : bool :=
  in_range 0 256 (Z.lor (Z.land (Z.shiftl b 1) 255) 1)
  && in_range 0 256 (Z.land (Z.shiftl b 1) 255).

Lemma push_bit_range (b v : Z) : 0 <= b < 256 -> 0 <= push_bit b v < 256.
Proof.
  intros Hb.
  pose proof (forall_bytes 256 push_bit_ok ltac:(vm_compute; reflexivity) b Hb) as H.
  unfold push_bit_ok in H. apply andb_true_iff in H as [H1 H2].
  apply in_range_iff in H1, H2.
  unfold push_bit. destruct (Z.eqb v 1); assumption.
Qed.

Lemma archive_loop_range (vs : list Z) : forall i arr b,
  Forall (fun x => 0 <= x < 256) arr -> 0 <= b < 256 ->
  Forall (fun x => 0 <= x < 256) (fst (archive_loop i vs arr b))
  /\ 0 <= snd (archive_loop i vs arr b) < 256.
Proof.
  induction vs as [|v vs IH]; intros i arr b Harr Hb; [split; assumption|].
  cbn [archive_loop].
  destruct (negb (Nat.eqb i 0) && Nat.eqb (Nat.modulo i 8) 0)%bool.
  - apply IH; [|apply push_bit_range; lia].
    apply Forall_app. split; [exact Harr | constructor; [exact Hb | constructor]].
  - apply IH; [exact Harr | apply push_bit_range; exact Hb].
Qed.

Lemma archive_bytes_range (w : list Z) :
  Forall (fun x => 0 <= x < 256) (archive_bytes w).
Proof.
  unfold archive_bytes.
  destruct (archive_loop_range w 0 [] 0 ltac:(constructor) ltac:(lia)) as [H1 _].
  destruct (archive_loop 0 w [] 0) as [arr b]. cbn [fst] in H1.
  apply Forall_app. split; [exact H1|].
  constructor; [|constructor].
  change 255 with (Z.ones 8). rewrite Z.land_ones by lia.
  apply Z.mod_pos_bound. reflexivity.
Qed.

